(** * make_cffi: header preprocessing pipeline of python-zstandard

    A shallow embedding of [make_cffi.py]: the rewriting of a header before
    it is handed to the C preprocessor ([preprocess]), the clean-up of the
    preprocessor's output ([normalize_output]), the re-insertion of
    object-like macros and the assembly of the cdef source ([get_ffi]).

    Python [bytes] are lists of [Byte.byte]; the file system, the temporary
    file of [preprocess] and Python's exceptions are threaded through a small
    state-and-exception monad. *)

From Stdlib Require Import Strings.String Strings.Byte NArith ZArith PeanoNat Bool List Lia.
Import ListNotations.
Local Open Scope string_scope.
Local Open Scope list_scope.

(** ** Python [bytes] and the methods the script uses *)

Module PyBytes.

Definition bytes := list byte.

(** A bytes literal [b"..."]. *)
Definition B (s : string) : bytes := list_byte_of_string s.

Definition LF : byte := x0a.
Definition CR : byte := x0d.
Definition SP : byte := x20.
Definition DQUOTE : byte := x22.

(** [line.startswith(prefix)] *)
Fixpoint startswith (line prefix : bytes) {struct prefix} : bool :=
  match prefix, line with
  | [], _ => true
  | p :: ps, c :: cs => Byte.eqb c p && startswith cs ps
  | _ :: _, [] => false
  end.

(** [line.startswith((p1, p2, ...))] *)
Definition startswith_any (line : bytes) (prefixes : list bytes) : bool :=
  existsb (startswith line) prefixes.

(** [needle in line] *)
Fixpoint contains (needle line : bytes) : bool :=
  startswith line needle ||
  match line with
  | [] => false
  | _ :: cs => contains needle cs
  end.

(** [line[len(prefix):]] *)
Definition drop_len (prefix line : bytes) : bytes :=
  skipn (List.length prefix) line.

(** The bytes [bytes.strip()] removes: space, tab, LF, CR, VT, FF. *)
Definition isspace (c : byte) : bool :=
  match c with
  | x20 | x09 | x0a | x0d | x0b | x0c => true
  | _ => false
  end.

Fixpoint lstrip (s : bytes) : bytes :=
  match s with
  | [] => []
  | c :: r => if isspace c then lstrip r else s
  end.

Definition rstrip (s : bytes) : bytes := rev (lstrip (rev s)).

(** [line.strip()] *)
Definition strip (s : bytes) : bytes := rstrip (lstrip s).

(** Truth value of a bytes object: non-empty. *)
Definition truthy (s : bytes) : bool :=
  match s with [] => false | _ :: _ => true end.

(** [sep.join(parts)] *)
Fixpoint join (sep : bytes) (parts : list bytes) : bytes :=
  match parts with
  | [] => []
  | [p] => p
  | p :: ps => p ++ sep ++ join sep ps
  end.

(** *** [bytes.splitlines()]

    A line ends at [\n], [\r] or [\r\n]; the terminators are not kept and a
    final piece is a line only when it is not empty.  The scan is the loop of
    the C implementation, with its position pair replaced by the lines
    finished so far, the line in progress and a flag telling that the
    previous byte was a [\r] (so that a following [\n] belongs to it). *)

Record scan := Scan { done : list bytes; cur : bytes; after_cr : bool }.

Definition scan0 : scan := Scan [] [] false.

Definition scan_step (st : scan) (c : byte) : scan :=
  if Byte.eqb c LF then
    if after_cr st then Scan (done st) (cur st) false
    else Scan (done st ++ [cur st]) [] false
  else if Byte.eqb c CR then Scan (done st ++ [cur st]) [] true
  else Scan (done st) (cur st ++ [c]) false.

Definition scan_finish (st : scan) : list bytes :=
  done st ++ (if truthy (cur st) then [cur st] else []).

Definition splitlines (s : bytes) : list bytes :=
  scan_finish (fold_left scan_step s scan0).

(** *** Iterating over a file opened in binary mode

    [for line in fh] yields the pieces that end after each [\n], terminator
    included, and a last piece without terminator when the file does not end
    in [\n]. *)

Definition iter_step (st : list bytes * bytes) (c : byte) : list bytes * bytes :=
  let (ls, l) := st in
  if Byte.eqb c LF then (ls ++ [l ++ [c]], []) else (ls, l ++ [c]).

Definition file_lines (content : bytes) : list bytes :=
  let (ls, l) := fold_left iter_step content ([], []) in
  ls ++ (if truthy l then [l] else []).

End PyBytes.
Import PyBytes.

(** ** The regular expressions of the script *)

(** The class [[a-zA-Z0-9_]] of the pattern [DEFINE]. *)
Definition ident_byte (c : byte) : bool :=
  let n := Byte.to_N c in
  ((97 <=? n) && (n <=? 122) || (65 <=? n) && (n <=? 90) ||
   (48 <=? n) && (n <=? 57) || (n =? 95))%N.

(** The longest run of bytes satisfying [p] at the head of [s], and the rest. *)
Fixpoint span (p : byte -> bool) (s : bytes) : bytes * bytes :=
  match s with
  | [] => ([], [])
  | c :: r =>
      if p c then let (a, b) := span p r in (c :: a, b) else ([], s)
  end.

(** [DEFINE = re.compile(b"^\\#define ([a-zA-Z0-9_]+) ")] and [DEFINE.match]:
    the literal [#define ], a non-empty run of identifier bytes and one space.
    The run is the longest one: a shorter run is followed by an identifier
    byte, never by the space the pattern asks for, so backtracking finds no
    other match.  The result is [(m.group(0), m.group(1))]. *)
Definition DEFINE_match (line : bytes) : option (bytes * bytes) :=
  if startswith line (B "#define ") then
    let (name, rest) := span ident_byte (drop_len (B "#define ") line) in
    match name, rest with
    | _ :: _, c :: _ =>
        if Byte.eqb c SP then Some (B "#define " ++ name ++ [SP], name) else None
    | _, _ => None
    end
  else None.

(** ** [preprocess]: rewriting the header *)

Definition INCLUDE_STDDEF : bytes := B "#include <stddef.h>".
Definition INCLUDE_ZSTD : bytes := B "#include " ++ [DQUOTE] ++ B "zstd.h" ++ [DQUOTE].
Definition DEFINE_GUARD : bytes := B "#define ZSTD_STATIC_LINKING_ONLY".
Definition INCLUDE_LIMITS : bytes := B "#include <limits.h>".
Definition DEFINE_INT_MAX : bytes := B "#define INT_MAX 2147483647" ++ [LF].

Definition dropped_prefixes : list bytes :=
  [INCLUDE_STDDEF; INCLUDE_ZSTD; DEFINE_GUARD].

Definition ZSTDLIB_API : bytes := B "ZSTDLIB_API".
Definition ZSTDLIB_STATIC_API : bytes := B "ZSTDLIB_STATIC_API".
Definition ZDICTLIB_STATIC_API : bytes := B "ZDICTLIB_STATIC_API".

Definition export_prefixes : list bytes :=
  [ZSTDLIB_API; ZSTDLIB_STATIC_API; ZDICTLIB_STATIC_API].

(** [if line.startswith(prefix): line = line[len(prefix):]] *)
Definition strip_prefix (line prefix : bytes) : bytes :=
  if startswith line prefix then drop_len prefix line else line.

(** The body of the loop [for line in it]: [None] is [continue] (the line is
    not appended), [Some l] is [lines.append(l)]. *)
Definition rewrite_line (line : bytes) : option bytes :=
  if startswith_any line dropped_prefixes then None
  else
    let line := if startswith line INCLUDE_LIMITS then DEFINE_INT_MAX else line in
    Some (fold_left strip_prefix export_prefixes line).

(** The list [lines] after the loop over the lines of the header. *)
Definition rewrite_lines (ls : list bytes) : list bytes :=
  fold_left (fun lines line =>
               match rewrite_line line with
               | None => lines
               | Some l => lines ++ [l]
               end) ls [].

(** [b''.join(lines)]: what is written to the temporary file. *)
Definition rewrite_header (content : bytes) : bytes :=
  join [] (rewrite_lines (file_lines content)).

(** ** [normalize_output] *)

Definition VISIBILITY : bytes :=
  B "__attribute__ ((visibility (" ++ [DQUOTE] ++ B "default" ++ [DQUOTE] ++ B "))) ".
Definition ATTR_DEPRECATED : bytes := B "__attribute__((deprecated".
Definition DECLSPEC_DEPRECATED : bytes := B "__declspec(deprecated(".
Definition ATTR_UNUSED : bytes := B "__attribute__((__unused__))".

(** The body of the loop of [normalize_output]. *)
Definition normalize_line (line : bytes) : option bytes :=
  let line := strip_prefix line VISIBILITY in
  if startswith line ATTR_DEPRECATED then None
  else if contains DECLSPEC_DEPRECATED line then None
  else if startswith line ATTR_UNUSED then None
  else Some line.

Definition normalize_lines (ls : list bytes) : list bytes :=
  fold_left (fun lines line =>
               match normalize_line line with
               | None => lines
               | Some l => lines ++ [l]
               end) ls [].

Definition normalize_output (output : bytes) : bytes :=
  join [LF] (normalize_lines (splitlines output)).

(** ** The macro re-insertion and the assembly of [get_ffi] *)

Definition GUARD_NAME : bytes := B "ZSTD_STATIC_LINKING_ONLY".
Definition denylist : list bytes := [B "ZSTD_LIB_VERSION"; B "ZSTD_VERSION_STRING"].

(** [==] on bytes. *)
Fixpoint bytes_eqb (a b : bytes) : bool :=
  match a, b with
  | [], [] => true
  | x :: a', y :: b' => Byte.eqb x y && bytes_eqb a' b'
  | _, _ => false
  end.

(** [name in (b"ZSTD_LIB_VERSION", b"ZSTD_VERSION_STRING")] *)
Definition denylisted (name : bytes) : bool := existsb (bytes_eqb name) denylist.

(** The body of the loop over the lines of the original header: [None] is
    [continue], [Some p] is [sources.append(p)] with
    [p = m.group(0) + b" ..."]. *)
Definition macro_line (line : bytes) : option bytes :=
  let line := strip line in
  match DEFINE_match line with
  | None => None
  | Some (group0, group1) =>
      if bytes_eqb group1 GUARD_NAME then None
      else if denylisted group1 then None
      else Some (group0 ++ B " ...")
  end.

(** [sources] after the inner loop over the lines of one header. *)
Definition reinject (sources : list bytes) (header_lines : list bytes) : list bytes :=
  fold_left (fun sources line =>
               match macro_line line with
               | None => sources
               | Some p => sources ++ [p]
               end) header_lines sources.

(** [cdeflines] after the filter [if line.strip()]. *)
Definition cdeflines (sources : list bytes) : list bytes :=
  filter (fun line => truthy (strip line)) (splitlines (join [LF] sources)).

(** The bytes handed to [decode]: [b"\n".join(cdeflines)]. *)
Definition cdef_bytes (sources : list bytes) : bytes :=
  join [LF] (cdeflines sources).

(** *** Decoding

    A Python [str] is a list of code points.  [bytes.decode] fails with
    [UnicodeDecodeError] on a byte its codec has no character for: ASCII has
    none for the bytes from 128 on, latin-1 has one for every byte. *)

Definition text := list N.

Inductive codec := ASCII | Latin1.

Definition decode_byte (c : codec) (x : byte) : option N :=
  match c with
  | Latin1 => Some (Byte.to_N x)
  | ASCII => if (Byte.to_N x <? 128)%N then Some (Byte.to_N x) else None
  end.

Fixpoint decode (c : codec) (s : bytes) : option text :=
  match s with
  | [] => Some []
  | x :: r =>
      match decode_byte c x, decode c r with
      | Some n, Some t => Some (n :: t)
      | _, _ => None
      end
  end.

(** ** The line markers scanned in system mode *)

Definition digit_byte (c : byte) : bool :=
  let n := Byte.to_N c in ((48 <=? n) && (n <=? 57))%N.

Definition endswith (s suffix : bytes) : bool := startswith (rev s) (rev suffix).

(** [include_re], the pattern [^# \d+ Q([^Q]+/(?:zstd|zdict)\.h)Q] where [Q]
    stands for the double quote, and [include_re.match(line).group(1)]: the
    literal [# ], digits, a space, and between the next two double quotes a
    path that ends in [/zstd.h] or [/zdict.h] after at least one more byte.
    The group cannot hold a double quote, so it is the whole text up to the
    first closing quote. *)
Definition include_match (line : bytes) : option bytes :=
  if startswith line (B "# ") then
    let (digits, rest) := span digit_byte (drop_len (B "# ") line) in
    match digits, rest with
    | _ :: _, s :: q :: rest' =>
        if Byte.eqb s SP && Byte.eqb q DQUOTE then
          let (p, closing) := span (fun c => negb (Byte.eqb c DQUOTE)) rest' in
          match closing with
          | [] => None
          | _ :: _ =>
              if (endswith p (B "/zstd.h") && (7 <? List.length p)%nat) ||
                 (endswith p (B "/zdict.h") && (8 <? List.length p)%nat)
              then Some p else None
          end
        else None
    | _, _ => None
    end
  else None.

(** ** The world the script runs in *)

Definition path := string.

(** The exceptions that can leave the functions of the script. *)
Inductive exn :=
| FileNotFoundError (p : path)   (* [open] or [os.unlink] of a missing file *)
| FileExistsError                (* [mkstemp]: no usable name was found *)
| OSError (call : string)        (* a system call failed *)
| CompileError                   (* [compiler.preprocess] failed *)
| UnicodeDecodeError             (* [decode] met a byte without a character *)
| Exception (msg : string).      (* [raise Exception(msg)] *)

Inductive outcome (A : Type) :=
| Returns (a : A)
| Raises (e : exn).
Arguments Returns {A} a.
Arguments Raises {A} e.

(** What the script changes or consumes while it runs: the files, the names
    the random generator of [tempfile] will propose, in order, and whether
    the device of the temporary directory has run out of space. *)
Record World := mkWorld {
  files : path -> option bytes;
  tmp_names : list path;
  disk_full : bool
}.

(** What is fixed for a run.  [cc] is the preprocessor subprocess started with
    [args + [input_file]]: it sees the name of its input file and what that
    name holds ([None]: nothing), and either cannot be started ([None],
    [Popen] raises [OSError]) or ends with an exit status and its standard
    output.  [system_markers] is the file [compiler.preprocess] writes for the
    scratch file that includes both headers ([None]: it raises).  [str_hash]
    is the hash of this run's interpreter, which decides the order in which a
    set of paths is listed. *)
Record Host := mkHost {
  here : path;
  cc : path -> option bytes -> option (Z * bytes);
  system_markers : option bytes;
  str_hash : path -> nat
}.

(** *** A state and exception monad *)

Definition M (A : Type) : Type := World -> outcome A * World.

Definition ret {A} (a : A) : M A := fun w => (Returns a, w).

Definition raise {A} (e : exn) : M A := fun w => (Raises e, w).

Definition bind {A B} (m : M A) (k : A -> M B) : M B :=
  fun w =>
    match m w with
    | (Returns a, w') => k a w'
    | (Raises e, w') => (Raises e, w')
    end.

(** [try: body finally: fin]: [fin] runs however [body] ends; an exception of
    [fin] replaces the outcome of [body]. *)
Definition try_finally {A} (body : M A) (fin : M unit) : M A :=
  fun w =>
    let (r, w') := body w in
    match fin w' with
    | (Returns _, w'') => (r, w'')
    | (Raises e, w'') => (Raises e, w'')
    end.

Notation "x <- m ;; k" := (bind m (fun x => k))
  (at level 61, m at next level, right associativity).
Notation "m ;;; k" := (bind m (fun _ => k))
  (at level 61, right associativity).

(** *** Files *)

Definition exists_file (w : World) (p : path) : bool :=
  match files w p with Some _ => true | None => false end.

Definition set_file (p : path) (c : option bytes) (w : World) : World :=
  mkWorld (fun q => if String.eqb q p then c else files w q)
          (tmp_names w) (disk_full w).

(** [with open(p, 'rb') as fh] and the reading of the whole of [fh]. *)
Definition read_file (p : path) : M bytes :=
  fun w =>
    match files w p with
    | Some c => (Returns c, w)
    | None => (Raises (FileNotFoundError p), w)
    end.

(** The first proposed name that no file has, and the names left. *)
Fixpoint first_fresh (w : World) (names : list path) : option (path * list path) :=
  match names with
  | [] => None
  | n :: rest => if exists_file w n then first_fresh w rest else Some (n, rest)
  end.

(** [tempfile.mkstemp(suffix='.h')]: an empty file is created under the first
    proposed name that is free; [FileExistsError] when every attempt met an
    existing file.  The descriptor it returns is identified with the name. *)
Definition mkstemp : M path :=
  fun w =>
    match first_fresh w (tmp_names w) with
    | None => (Raises FileExistsError, mkWorld (files w) [] (disk_full w))
    | Some (n, rest) =>
        (Returns n, mkWorld (fun q => if String.eqb q n then Some [] else files w q)
                            rest (disk_full w))
    end.

(** [os.write(fd, data)]: [OSError] (no space left on device) when there are
    bytes to write and no room for them. *)
Definition os_write (fd : path) (data : bytes) : M unit :=
  fun w =>
    if disk_full w && truthy data then (Raises (OSError "write"), w)
    else (Returns tt, set_file fd (Some data) w).

(** [os.close(fd)] *)
Definition os_close (fd : path) : M unit := ret tt.

(** [os.unlink(p)] *)
Definition os_unlink (p : path) : M unit :=
  fun w =>
    if exists_file w p then (Returns tt, set_file p None w)
    else (Raises (FileNotFoundError p), w).

Section Pipeline.

Variable host : Host.

(** [subprocess.Popen(args + [input_file], stdout=PIPE, env=env)],
    [process.communicate()[0]] and [process.poll()]. *)
Definition run_preprocessor (input_file : path) : M (Z * bytes) :=
  fun w =>
    match cc host input_file (files w input_file) with
    | Some r => (Returns r, w)
    | None => (Raises (OSError "Popen"), w)
    end.

(** ** [preprocess] *)

Definition preprocess (p : path) : M bytes :=
  content <- read_file p ;;
  let lines := rewrite_lines (file_lines content) in
  input_file <- mkstemp ;;
  os_write input_file (join [] lines) ;;;
  os_close input_file ;;;
  try_finally
    (r <- run_preprocessor input_file ;;
     let (status, output) := r in
     if (status =? 0)%Z then ret output
     else raise (Exception "preprocessor exited with error"))
    (os_unlink input_file).

(** ** [get_ffi] *)

(** The loop [for header in headers], with the list [sources] it extends. *)
Fixpoint process_headers (headers : list path) (sources : list bytes)
  : M (list bytes) :=
  match headers with
  | [] => ret sources
  | header :: rest =>
      preprocessed <- preprocess header ;;
      let sources := sources ++ [normalize_output preprocessed] in
      content <- read_file header ;;
      process_headers rest (reinject sources (file_lines content))
  end.

(** The lines from [DEFINE = ...] to the argument of [ffi.cdef]. *)
Definition assemble (headers : list path) : M text :=
  sources <- process_headers headers [] ;;
  match decode Latin1 (cdef_bytes sources) with
  | Some t => ret t
  | None => raise UnicodeDecodeError
  end.

(** [list({...})]: the distinct paths, in the order of their hashes. *)
Fixpoint insert_by (h : path -> nat) (p : path) (l : list path) : list path :=
  match l with
  | [] => [p]
  | q :: r => if (h p <=? h q)%nat then p :: l else q :: insert_by h p r
  end.

Definition list_of_set (l : list path) : list path :=
  fold_right (insert_by (str_hash host)) [] (nodup string_dec l).

(** The paths of the markers of the scratch output that [include_re]
    matches.  The output is read in text mode; its lines are taken here as
    the bytes of their characters. *)
Definition marker_paths (out : bytes) : list path :=
  flat_map (fun line =>
              match include_match line with
              | Some p => [string_of_list_byte p]
              | None => []
              end) (file_lines out).

(** The two branches on [system_zstd] that set [headers]. *)
Definition locate_headers (system_zstd : bool) : M (list path) :=
  if system_zstd then
    match system_markers host with
    | None => raise CompileError
    | Some out => ret (list_of_set (marker_paths out))
    end
  else
    ret [here host ++ "/zstd/zstd.h"; here host ++ "/zstd/zdict.h"]%string.

(** What [get_ffi] hands to cffi: the arguments of [set_source] and the
    text given to [cdef]. *)
Record FFI := mkFFI {
  ffi_sources : list string;
  ffi_include_dirs : list string;
  ffi_libraries : list string;
  ffi_cdef : text
}.

Definition get_ffi (system_zstd : bool) : M FFI :=
  headers <- locate_headers system_zstd ;;
  cdef <- assemble headers ;;
  ret (if system_zstd
       then mkFFI [] [] ["zstd"] cdef
       else mkFFI ["zstd/zstd.c"] [(here host ++ "/zstd")%string] [] cdef).

End Pipeline.

(** ** The command line of the preprocessor

    The statements at module level, from [args = getattr(compiler,
    'preprocessor', None)] to the [raise] for an unknown compiler type.  The
    compiler object is what distutils has set up: its type, the preprocessor
    command it may carry, the compiler command of a unix compiler and the
    executable of an MSVC one. *)

Record Compiler := mkCompiler {
  compiler_type : string;
  preprocessor : option (list string);
  compiler_cmd : list string;
  compiler_cc : string
}.

(** What can stop the configuration: [compiler.compiler[0]] on an empty
    list, and the [raise Exception] with its message. *)
Inductive config_error :=
| IndexError
| UnsupportedCompiler (msg : string).

(** [not args]: [None] and the empty list are false values. *)
Definition not_args (args : option (list string)) : bool :=
  match args with
  | None | Some [] => true
  | Some (_ :: _) => false
  end.

Definition unix_defines : list string :=
  ["-DZSTD_STATIC_LINKING_ONLY"; "-DZDICT_STATIC_LINKING_ONLY"].

Definition msvc_defines : list string :=
  ["/DZSTD_STATIC_LINKING_ONLY"; "/DZDICT_STATIC_LINKING_ONLY"].

(** [args.extend(defines)] where [args] is either the list object of
    [compiler.preprocessor] or a list made afresh: in the first case the
    compiler's own command grows with it.  The result is [args] and the
    compiler object after the statement. *)
Definition extend_args (c : Compiler) (fresh : list string) (defines : list string)
  : list string * Compiler :=
  match preprocessor c with
  | Some (a :: args) =>
      ((a :: args) ++ defines,
       mkCompiler (compiler_type c) (Some ((a :: args) ++ defines))
                  (compiler_cmd c) (compiler_cc c))
  | _ => (fresh ++ defines, c)
  end.

(** The module-level configuration: the arguments of the preprocessor run
    and the compiler object as it is left. *)
Definition configure (c : Compiler) : config_error + (list string * Compiler) :=
  if String.eqb (compiler_type c) "unix" then
    if not_args (preprocessor c) then
      match compiler_cmd c with
      | [] => inl IndexError
      | exe :: _ => inr (extend_args c [exe; "-E"] unix_defines)
      end
    else inr (extend_args c [] unix_defines)
  else if String.eqb (compiler_type c) "msvc" then
    inr (extend_args c [compiler_cc c; "/EP"] msvc_defines)
  else inl (UnsupportedCompiler ("unsupported compiler type: " ++ compiler_type c)%string).

(** * Vocabulary of the statements

    Names for what the statements below speak of, the rule of the
    specification that is compared with the code, and the concrete headers,
    hosts and worlds at which the code is evaluated. *)

(** What a loop that appends or skips leaves: the values [f] gives, in order. *)
Definition kept {A C : Type} (f : A -> option C) (l : list A) : list C :=
  flat_map (fun x => match f x with Some y => [y] | None => [] end) l.

(** The two bytes that end a line for [splitlines]. *)
Definition linebreak (c : byte) : bool := Byte.eqb c LF || Byte.eqb c CR.

(** A piece of text without line terminator. *)
Definition clean (l : bytes) : Prop := Forall (fun c => linebreak c = false) l.

(** The scan of [splitlines] resumed with the line in progress [c] and the
    flag [f], over what is left to read. *)
Definition lines_from (c : bytes) (f : bool) (s : bytes) : list bytes :=
  scan_finish (fold_left scan_step s (Scan [] c f)).

(** The test of the filter on [cdeflines]: [if line.strip()]. *)
Definition nonblank (l : bytes) : bool := truthy (strip l).

(** A line of a file without its terminator, [\n] or [\r\n]. *)
Definition chomp (line : bytes) : bytes :=
  match rev line with
  | x0a :: x0d :: r => rev r
  | x0a :: r => rev r
  | _ => line
  end.

(** The drop rule as the specification words it: the line, its terminator
    set aside, is exactly one of the three directives. *)
Definition spec_dropped_exactly (line : bytes) : bool :=
  existsb (bytes_eqb (chomp line)) dropped_prefixes.

(** The include of [stddef.h] as [zstd.h] writes it. *)
Definition stddef_with_comment : bytes :=
  B "#include <stddef.h>   /* size_t */" ++ [LF].

(** A declaration that carries the MSVC marker after a storage class. *)
Definition declspec_inside : bytes :=
  B "static __declspec(deprecated(x)) int f(void);".


(** The line [get_ffi] appends for the macro [name]: group 0 of the match,
    which ends with the space of the pattern, and [b" ..."]. *)
Definition placeholder (name : bytes) : bytes :=
  (B "#define " ++ name ++ [SP]) ++ B " ...".

(** The names for which nothing is appended. *)
Definition excluded (name : bytes) : bool :=
  bytes_eqb name GUARD_NAME || denylisted name.

(** The header line defines [name] as far as [DEFINE] can tell. *)
Definition defines (name line : bytes) : bool :=
  match DEFINE_match (strip line) with
  | Some (_, group1) => bytes_eqb group1 name
  | None => false
  end.

(** The number of lines that satisfy [p]. *)
Definition count (p : bytes -> bool) (l : list bytes) : nat :=
  List.length (filter p l).

(** The world after [mkstemp] created [n]. *)
Definition created (n : path) (rest : list path) (w : World) : World :=
  mkWorld (fun q => if String.eqb q n then Some [] else files w q) rest (disk_full w).

(** A small preprocessor: it prints the lines of its input that are not
    directives and exits with status 0; without input it exits with 1. *)
Definition toy_cc (_ : path) (input : option bytes) : option (Z * bytes) :=
  match input with
  | Some s =>
      Some (0%Z, join [] (filter (fun l => negb (startswith l (B "#"))) (file_lines s)))
  | None => Some (1%Z, [])
  end.

(** A host with that preprocessor; it is not asked for markers. *)
Definition toy_host : Host :=
  mkHost "/src" toy_cc None (fun p => String.length p).

(** The header of the end-to-end scenario of the specification. *)
Definition scenario_header : bytes :=
  B "#define FOO 1" ++ [LF] ++ B "#include <stddef.h>" ++ [LF] ++
  B "ZSTDLIB_API int f(void);" ++ [LF].

(** The declaration text the pipeline assembles from it. *)
Definition scenario_text : text :=
  map Byte.to_N (B " int f(void);" ++ [LF] ++ B "#define FOO  ...").

(** A file system with one file. *)
Definition only_file (p : path) (content : bytes) : path -> option bytes :=
  fun q => if String.eqb q p then Some content else None.

(** A run: the header, one name for the temporary file, room on the
    device. *)
Definition world_a : World :=
  mkWorld (only_file "zstd.h" scenario_header) ["/tmp/tmpa1b2c3.h"] false.

(** Another run: other names for the temporary file, the first one taken,
    and one more file around. *)
Definition world_b : World :=
  mkWorld (fun q => if String.eqb q "/tmp/tmpx.h" then Some (B "stale")
                    else only_file "zstd.h" scenario_header q)
          ["/tmp/tmpx.h"; "/tmp/tmpy.h"] false.


(** The device of the temporary directory is full. *)
Definition world_full : World :=
  mkWorld (only_file "zstd.h" scenario_header) ["/tmp/tmpa1b2c3.h"] true.

(** A header that defines the same macro in both branches of a
    conditional. *)
Definition foo_twice : bytes :=
  B "#if defined(BIG)" ++ [LF] ++ B "#define FOO 2" ++ [LF] ++ B "#else" ++ [LF] ++
  B "#define FOO 1" ++ [LF] ++ B "#endif" ++ [LF].

(** A run over that header. *)
Definition world_foo : World :=
  mkWorld (only_file "zstd.h" foo_twice) ["/tmp/tmpa1b2c3.h"] false.

(** What is assembled from it: the conditional is gone, two placeholders
    are left. *)
Definition foo_text : bytes := B "#define FOO  ..." ++ [LF] ++ B "#define FOO  ...".



(** The seven beginnings of a line that [preprocess] reacts to. *)
Definition special_prefixes : list bytes :=
  dropped_prefixes ++ [INCLUDE_LIMITS] ++ export_prefixes.

(** A line that [normalize_output] has no rule for. *)
Definition unmarked (l : bytes) : bool :=
  negb (startswith l VISIBILITY) && negb (startswith l ATTR_DEPRECATED) &&
  negb (contains DECLSPEC_DEPRECATED l) && negb (startswith l ATTR_UNUSED).

(** A list of lines without its last line when that one is empty. *)
Fixpoint trim_last (ks : list bytes) : list bytes :=
  match ks with
  | [] => []
  | [k] => if truthy k then [k] else []
  | k :: rest => k :: trim_last rest
  end.


(** The proposed names that no file has. *)
Definition free_names (w : World) : list path :=
  filter (fun n => negb (exists_file w n)) (tmp_names w).

(** The vendored tree of [toy_host] with the scenario header, on a full
    device. *)
Definition vendored_full : World :=
  mkWorld (fun q => if String.eqb q "/src/zstd/zstd.h" then Some scenario_header
                    else if String.eqb q "/src/zstd/zdict.h" then Some (B "int z;")
                    else None)
          ["/tmp/tmpa1b2c3.h"] true.

(** The markers of a compiler that writes [# n "path"], the first header
    met twice. *)
Definition gcc_markers : bytes :=
  B "# 1 " ++ [DQUOTE] ++ B "/usr/include/zstd.h" ++ [DQUOTE] ++ B " 1 3 4" ++ [LF] ++
  B "# 1 " ++ [DQUOTE] ++ B "/usr/include/zdict.h" ++ [DQUOTE] ++ B " 1 3 4" ++ [LF] ++
  B "# 40 " ++ [DQUOTE] ++ B "/usr/include/zstd.h" ++ [DQUOTE] ++ B " 2 3 4" ++ [LF].

(** A host in system mode whose scratch output holds these markers. *)
Definition gcc_host : Host :=
  mkHost "/src" toy_cc (Some gcc_markers) (fun p => String.length p).






Definition unix_without_cpp : Compiler :=
  mkCompiler "unix" None ["clang"; "-fPIC"] "".

(** * Properties *)

(** ** The embedding on concrete inputs *)

Example splitlines_crlf :
  splitlines (B "a" ++ [CR; LF] ++ B "b" ++ [LF; CR] ++ B "c" ++ [LF]) =
  [B "a"; B "b"; []; B "c"].
Proof. reflexivity. Qed.

Example splitlines_empty : splitlines [] = [] /\ splitlines [LF] = [[]].
Proof. split; reflexivity. Qed.

Example file_lines_keep_terminator :
  file_lines (B "a" ++ [LF; LF] ++ B "b") = [B "a" ++ [LF]; [LF]; B "b"].
Proof. reflexivity. Qed.

Example strip_both_ends :
  strip ([SP; x09] ++ B "#define A 1" ++ [CR; LF]) = B "#define A 1".
Proof. reflexivity. Qed.

Example DEFINE_match_simple :
  DEFINE_match (B "#define FOO 1") = Some (B "#define FOO ", B "FOO").
Proof. reflexivity. Qed.

Example DEFINE_match_function_like :
  DEFINE_match (B "#define MIN(a,b) a") = None /\ DEFINE_match (B "#define FOO") = None.
Proof. split; reflexivity. Qed.

Example rewrite_header_scenario :
  rewrite_header (B "#define FOO 1" ++ [LF] ++ B "#include <stddef.h>" ++ [LF] ++
                  B "ZSTDLIB_API int f(void);" ++ [LF]) =
  B "#define FOO 1" ++ [LF] ++ B " int f(void);" ++ [LF].
Proof. reflexivity. Qed.

Example include_match_usr :
  include_match (B "# 1 " ++ [DQUOTE] ++ B "/usr/include/zstd.h" ++ [DQUOTE] ++ B " 1 3 4" ++ [LF])
  = Some (B "/usr/include/zstd.h").
Proof. reflexivity. Qed.

Example include_match_other :
  include_match (B "# 1 " ++ [DQUOTE] ++ B "/usr/include/stddef.h" ++ [DQUOTE] ++ [LF]) = None /\
  include_match (B "#line 1 " ++ [DQUOTE] ++ B "/usr/include/zstd.h" ++ [DQUOTE] ++ [LF]) = None.
Proof. split; reflexivity. Qed.

(** ** Prefixes and equality of bytes *)

Lemma byte_eqb_refl (c : byte) : Byte.eqb c c = true.
Proof. now apply Byte.byte_dec_lb. Qed.

Lemma startswith_app (p rest : bytes) : startswith (p ++ rest) p = true.
Proof.
  induction p as [|c p IH]; simpl; [reflexivity|].
  now rewrite byte_eqb_refl, IH.
Qed.

Lemma startswith_inv (line p : bytes) :
  startswith line p = true -> exists rest, line = p ++ rest.
Proof.
  revert line; induction p as [|c p IH]; intros line H.
  - now exists line.
  - destruct line as [|d line]; simpl in H; [discriminate|].
    apply andb_prop in H as [Hc Hp].
    apply Byte.byte_dec_bl in Hc; subst d.
    destruct (IH _ Hp) as [rest ->].
    now exists rest.
Qed.

Lemma startswith_iff (line p : bytes) :
  startswith line p = true <-> exists rest, line = p ++ rest.
Proof.
  split; [apply startswith_inv|].
  intros [rest ->]; apply startswith_app.
Qed.

Lemma drop_len_app (p rest : bytes) : drop_len p (p ++ rest) = rest.
Proof. unfold drop_len; induction p; simpl; auto. Qed.

Lemma strip_prefix_app (p rest : bytes) : strip_prefix (p ++ rest) p = rest.
Proof. unfold strip_prefix; now rewrite startswith_app, drop_len_app. Qed.


Lemma bytes_eqb_refl (a : bytes) : bytes_eqb a a = true.
Proof. induction a; simpl; [|rewrite byte_eqb_refl]; auto. Qed.

Lemma bytes_eqb_eq (a b : bytes) : bytes_eqb a b = true <-> a = b.
Proof.
  split; [|intros ->; apply bytes_eqb_refl].
  revert b; induction a as [|x a IH]; destruct b as [|y b]; simpl; try easy.
  intros H; apply andb_prop in H as [Hx Ha].
  apply Byte.byte_dec_bl in Hx; subst; f_equal; auto.
Qed.

(** ** Loops that append or skip

    The three loops of the script have one shape: each element either
    appends one value to the list built so far or leaves it alone. *)

Section AppendLoops.

Context {A C : Type} (f : A -> option C).

Lemma append_loop (l : list A) (acc : list C) :
  fold_left (fun acc x => match f x with None => acc | Some y => acc ++ [y] end) l acc
  = acc ++ kept f l.
Proof.
  revert acc; induction l as [|x l IH]; intros acc; simpl.
  - now rewrite app_nil_r.
  - rewrite IH; destruct (f x); simpl; [now rewrite <- app_assoc|reflexivity].
Qed.

Lemma in_kept (l : list A) (y : C) :
  In y (kept f l) <-> exists x, In x l /\ f x = Some y.
Proof.
  unfold kept; rewrite in_flat_map; split; intros [x [Hx Hy]]; exists x; split; auto.
  - destruct (f x); simpl in Hy; [destruct Hy as [->|[]]; auto|contradiction].
  - rewrite Hy; now left.
Qed.

End AppendLoops.

Lemma rewrite_lines_kept (ls : list bytes) : rewrite_lines ls = kept rewrite_line ls.
Proof. unfold rewrite_lines; now rewrite append_loop. Qed.

Lemma normalize_lines_kept (ls : list bytes) :
  normalize_lines ls = kept normalize_line ls.
Proof. unfold normalize_lines; now rewrite append_loop. Qed.

Lemma reinject_kept (sources ls : list bytes) :
  reinject sources ls = sources ++ kept macro_line ls.
Proof. unfold reinject; now rewrite append_loop. Qed.

(** ** Lines

    [lines_from c f s] is what the scan of [splitlines] yields from the
    moment the line in progress is [c], the flag is [f] and [s] is left to
    read; its three equations replace the fold in what follows. *)

Lemma scan_step_done (d : list bytes) (c : bytes) (f : bool) (x : byte) :
  scan_step (Scan d c f) x =
  Scan (d ++ done (scan_step (Scan [] c f) x))
       (cur (scan_step (Scan [] c f) x))
       (after_cr (scan_step (Scan [] c f) x)).
Proof.
  unfold scan_step; cbn [done cur after_cr].
  destruct (Byte.eqb x LF); [destruct f|destruct (Byte.eqb x CR)];
    cbn [done cur after_cr app]; now rewrite ?app_nil_r.
Qed.

Lemma scan_done_prefix (s : bytes) (d : list bytes) (c : bytes) (f : bool) :
  fold_left scan_step s (Scan d c f) =
  Scan (d ++ done (fold_left scan_step s (Scan [] c f)))
       (cur (fold_left scan_step s (Scan [] c f)))
       (after_cr (fold_left scan_step s (Scan [] c f))).
Proof.
  revert d c f; induction s as [|x s IH]; intros d c f.
  - simpl; now rewrite app_nil_r.
  - cbn [fold_left]. rewrite scan_step_done.
    destruct (scan_step (Scan [] c f) x) as [d' c' f'] eqn:E; cbn [done cur after_cr].
    rewrite IH, (IH d'); cbn [done cur after_cr].
    now rewrite app_assoc.
Qed.

Lemma splitlines_lines_from (s : bytes) : splitlines s = lines_from [] false s.
Proof. reflexivity. Qed.

Lemma lines_from_nil (c : bytes) (f : bool) :
  lines_from c f [] = if truthy c then [c] else [].
Proof. reflexivity. Qed.

Lemma lines_from_cons (c : bytes) (f : bool) (x : byte) (s : bytes) :
  lines_from c f (x :: s) =
  if Byte.eqb x LF then
    if f then lines_from c false s else c :: lines_from [] false s
  else if Byte.eqb x CR then c :: lines_from [] true s
  else lines_from (c ++ [x]) false s.
Proof.
  unfold lines_from; cbn [fold_left].
  assert (E : scan_step (Scan [] c f) x =
              if Byte.eqb x LF then if f then Scan [] c false else Scan [c] [] false
              else if Byte.eqb x CR then Scan [c] [] true
              else Scan [] (c ++ [x]) false).
  { unfold scan_step; cbn [done cur after_cr app].
    destruct (Byte.eqb x LF); [destruct f|destruct (Byte.eqb x CR)]; reflexivity. }
  rewrite E.
  destruct (Byte.eqb x LF); [destruct f|destruct (Byte.eqb x CR)]; try reflexivity;
    rewrite scan_done_prefix; unfold scan_finish; cbn [done cur after_cr];
    now rewrite <- app_assoc.
Qed.

Lemma clean_app (a b : bytes) : clean a -> clean b -> clean (a ++ b).
Proof. unfold clean; intros; apply Forall_app; auto. Qed.

Lemma clean_skipn (n : nat) (l : bytes) : clean l -> clean (skipn n l).
Proof.
  unfold clean; rewrite !Forall_forall; intros H c Hc.
  apply H; rewrite <- (firstn_skipn n l); apply in_or_app; now right.
Qed.

Lemma clean_strip_prefix (l p : bytes) : clean l -> clean (strip_prefix l p).
Proof.
  unfold strip_prefix, drop_len; destruct (startswith l p); auto using clean_skipn.
Qed.

(** Every line [splitlines] yields is free of line terminators. *)
Lemma lines_from_clean (s c : bytes) (f : bool) (l : bytes) :
  clean c -> In l (lines_from c f s) -> clean l.
Proof.
  revert c f; induction s as [|x s IH]; intros c f Hc Hl.
  - rewrite lines_from_nil in Hl; destruct (truthy c); simpl in Hl;
      [destruct Hl as [<-|[]]; auto|contradiction].
  - rewrite lines_from_cons in Hl.
    destruct (Byte.eqb x LF) eqn:ELF; [destruct f|destruct (Byte.eqb x CR) eqn:ECR].
    + eapply IH; eauto.
    + destruct Hl as [<-|Hl]; auto. eapply IH; [|eauto]. constructor.
    + destruct Hl as [<-|Hl]; auto. eapply IH; [|eauto]. constructor.
    + eapply IH; [|eauto]. apply clean_app; auto.
      constructor; [|constructor]. unfold linebreak; now rewrite ELF, ECR.
Qed.

Lemma splitlines_clean (s l : bytes) : In l (splitlines s) -> clean l.
Proof. apply lines_from_clean; constructor. Qed.

(** A run of bytes without terminator extends the line in progress. *)
Lemma lines_from_clean_app (k : bytes) (c : bytes) (f : bool) (s : bytes) :
  clean k -> k <> [] -> lines_from c f (k ++ s) = lines_from (c ++ k) false s.
Proof.
  revert c f; induction k as [|x k IH]; intros c f Hk Hne; [congruence|].
  inversion Hk as [|? ? Hx Hk']; subst.
  unfold linebreak in Hx; apply orb_false_elim in Hx as [ELF ECR].
  cbn [app]; rewrite lines_from_cons, ELF, ECR.
  destruct k as [|y k].
  - reflexivity.
  - rewrite IH by (auto; discriminate). now rewrite <- app_assoc.
Qed.

Lemma splitlines_clean_line (k : bytes) :
  clean k -> splitlines k = if truthy k then [k] else [].
Proof.
  intros Hk; destruct k as [|x k]; [reflexivity|].
  rewrite splitlines_lines_from.
  rewrite <- (app_nil_r (x :: k)) at 1.
  rewrite lines_from_clean_app by (auto; discriminate).
  reflexivity.
Qed.

Lemma splitlines_clean_cons (k s : bytes) :
  clean k -> splitlines (k ++ LF :: s) = k :: splitlines s.
Proof.
  intros Hk; rewrite !splitlines_lines_from; destruct k as [|x k].
  - cbn [app]; now rewrite lines_from_cons.
  - rewrite lines_from_clean_app by (auto; discriminate).
    cbn [app]; now rewrite lines_from_cons.
Qed.

Lemma join_cons (sep p : bytes) (q : bytes) (ps : list bytes) :
  join sep (p :: q :: ps) = p ++ sep ++ join sep (q :: ps).
Proof. reflexivity. Qed.


(** And exactly the joined lines when none of them is empty. *)
Lemma splitlines_join (ls : list bytes) :
  Forall (fun k => clean k /\ truthy k = true) ls -> splitlines (join [LF] ls) = ls.
Proof.
  induction ls as [|k ls IH]; intros H; [reflexivity|].
  inversion H as [|? ? [Hk Ht] Hls]; subst.
  destruct ls as [|k2 ls].
  - cbn [join]; rewrite splitlines_clean_line by auto; now rewrite Ht.
  - rewrite join_cons; cbn [app].
    rewrite splitlines_clean_cons by auto; now rewrite IH.
Qed.

(** ** Blank lines and the assembly *)

Lemma nonblank_truthy (l : bytes) : nonblank l = true -> truthy l = true.
Proof. destruct l; [discriminate|reflexivity]. Qed.

Lemma cdeflines_filter (sources : list bytes) :
  cdeflines sources = filter nonblank (splitlines (join [LF] sources)).
Proof. reflexivity. Qed.

(** A [\n] between two texts separates their lines; it can only add or
    remove an empty line, which the filter discards. *)
Lemma nonblank_lines_app (x y c : bytes) (f : bool) :
  (f = true -> c = []) ->
  filter nonblank (lines_from c f (x ++ LF :: y)) =
  filter nonblank (lines_from c f x) ++ filter nonblank (splitlines y).
Proof.
  revert c f; induction x as [|a x IH]; intros c f Hf.
  - cbn [app]; rewrite lines_from_cons, lines_from_nil; cbn [Byte.eqb LF].
    change (Byte.eqb LF LF) with true; cbv iota.
    destruct f.
    + rewrite Hf by reflexivity. reflexivity.
    + destruct c as [|c0 c]; [reflexivity|].
      cbn [truthy filter]. destruct (nonblank (c0 :: c)); reflexivity.
  - cbn [app]; rewrite !lines_from_cons.
    destruct (Byte.eqb a LF); [destruct f|destruct (Byte.eqb a CR)].
    + apply IH; discriminate.
    + cbn [filter]; rewrite IH by discriminate.
      destruct (nonblank c); reflexivity.
    + cbn [filter]; rewrite IH by reflexivity.
      destruct (nonblank c); reflexivity.
    + apply IH; discriminate.
Qed.

Lemma nonblank_lines_join (xs : list bytes) :
  filter nonblank (splitlines (join [LF] xs)) =
  flat_map (fun x => filter nonblank (splitlines x)) xs.
Proof.
  induction xs as [|x xs IH]; [reflexivity|].
  destruct xs as [|x2 xs].
  - cbn [join flat_map]; now rewrite app_nil_r.
  - rewrite join_cons; cbn [app flat_map].
    rewrite splitlines_lines_from, nonblank_lines_app by discriminate.
    rewrite <- !splitlines_lines_from. f_equal. exact IH.
Qed.

(** The lines kept for cdef, source by source. *)
Lemma cdeflines_flat_map (sources : list bytes) :
  cdeflines sources = flat_map (fun x => filter nonblank (splitlines x)) sources.
Proof. rewrite cdeflines_filter; apply nonblank_lines_join. Qed.

Lemma cdeflines_app (s1 s2 : list bytes) :
  cdeflines (s1 ++ s2) = cdeflines s1 ++ cdeflines s2.
Proof. rewrite !cdeflines_flat_map; apply flat_map_app. Qed.

Lemma cdeflines_wellformed (sources : list bytes) :
  Forall (fun k => clean k /\ truthy k = true) (cdeflines sources).
Proof.
  rewrite cdeflines_filter; apply Forall_forall; intros l Hl.
  apply filter_In in Hl as [Hl Hnb]; split.
  - eapply splitlines_clean; eauto.
  - now apply nonblank_truthy.
Qed.

(** The lines of the assembled bytes are the lines that were kept. *)
Lemma splitlines_cdef_bytes (sources : list bytes) :
  splitlines (cdef_bytes sources) = cdeflines sources.
Proof. unfold cdef_bytes; apply splitlines_join, cdeflines_wellformed. Qed.

(** C8.  Whatever the normalized bodies and the placeholders in [sources]
    are, the assembled declaration text, split into lines, holds no line that
    is empty once its white space is trimmed: the number of such lines is
    zero. *)
Theorem assembled_text_has_no_blank_line (sources : list bytes) :
  List.length (filter (fun line => negb (truthy (strip line)))
                      (splitlines (cdef_bytes sources))) = 0.
Proof.
  rewrite splitlines_cdef_bytes, cdeflines_filter.
  induction (splitlines (join [LF] sources)) as [|l ls IH]; [reflexivity|].
  cbn [filter]; destruct (nonblank l) eqn:E; [cbn [filter]|exact IH].
  unfold nonblank in E; rewrite E; exact IH.
Qed.

(** ** The rewriting of the header in [preprocess] *)

(** C3, against the claim: the line of [zstd.h] that includes [stddef.h]
    carries a comment, so it is not exactly the directive, and [preprocess]
    drops it all the same. *)
Lemma drop_rule_is_not_exact_match :
  rewrite_line stddef_with_comment = None /\
  spec_dropped_exactly stddef_with_comment = false /\
  rewrite_header stddef_with_comment = [].
Proof. split; [|split]; reflexivity. Qed.

(** C3, amended.  The loop of [preprocess] treats each line on its own, and
    it drops a line if and only if the line begins with one of the three
    directives: the include of [stddef.h], the include of [zstd.h], the
    definition of [ZSTD_STATIC_LINKING_ONLY]; whatever follows the directive
    on the line does not matter. *)
Theorem preprocess_drops_lines_by_prefix (ls : list bytes) (line : bytes) :
  rewrite_lines ls = kept rewrite_line ls /\
  (rewrite_line line = None <->
   exists rest, line = INCLUDE_STDDEF ++ rest \/ line = INCLUDE_ZSTD ++ rest \/
                line = DEFINE_GUARD ++ rest).
Proof.
  split; [apply rewrite_lines_kept|].
  unfold rewrite_line.
  destruct (startswith_any line dropped_prefixes) eqn:E.
  - split; [intros _|reflexivity].
    apply existsb_exists in E as [d [Hd Hs]].
    apply startswith_inv in Hs as [rest ->]; exists rest.
    destruct Hd as [<-|[<-|[<-|[]]]]; auto.
  - split; [discriminate|].
    intros [rest H].
    assert (Hs : startswith_any line dropped_prefixes = true).
    { apply existsb_exists.
      destruct H as [-> | [-> | ->]];
        [exists INCLUDE_STDDEF|exists INCLUDE_ZSTD|exists DEFINE_GUARD];
        (split; [simpl; auto|apply startswith_app]). }
    congruence.
Qed.

(** C4, against the claim: the token is removed and nothing else, so the
    space that followed it stays; [int f(void);] is not a line of the
    rewritten header. *)
Lemma export_token_leaves_the_space :
  rewrite_header (B "ZSTDLIB_API int f(void);" ++ [LF]) <> B "int f(void);" ++ [LF] /\
  ~ In (B "int f(void);") (splitlines (rewrite_header (B "ZSTDLIB_API int f(void);" ++ [LF]))).
Proof.
  split.
  - discriminate.
  - intros [H|[]]; discriminate H.
Qed.

(** C4, amended.  A line that begins with [ZSTDLIB_API], [ZSTDLIB_STATIC_API]
    or [ZDICTLIB_STATIC_API] loses exactly that token; the rest of the line is
    kept as it is, white space included, except that the tokens later in the
    list are removed in turn when the rest begins with them.  The header line
    [ZSTDLIB_API int f(void);] becomes [ int f(void);], with the space. *)
Theorem preprocess_strips_export_token (rest : bytes) :
  rewrite_line (ZSTDLIB_API ++ rest) =
    Some (strip_prefix (strip_prefix rest ZSTDLIB_STATIC_API) ZDICTLIB_STATIC_API) /\
  rewrite_line (ZSTDLIB_STATIC_API ++ rest) =
    Some (strip_prefix rest ZDICTLIB_STATIC_API) /\
  rewrite_line (ZDICTLIB_STATIC_API ++ rest) = Some rest /\
  rewrite_header (B "ZSTDLIB_API int f(void);" ++ [LF]) = B " int f(void);" ++ [LF].
Proof.
  unfold rewrite_line; split; [|split; [|split; [|reflexivity]]].
  - change (startswith_any (ZSTDLIB_API ++ rest) dropped_prefixes) with false.
    change (startswith (ZSTDLIB_API ++ rest) INCLUDE_LIMITS) with false.
    cbn [export_prefixes fold_left]; now rewrite strip_prefix_app.
  - change (startswith_any (ZSTDLIB_STATIC_API ++ rest) dropped_prefixes) with false.
    change (startswith (ZSTDLIB_STATIC_API ++ rest) INCLUDE_LIMITS) with false.
    cbn [export_prefixes fold_left].
    change (strip_prefix (ZSTDLIB_STATIC_API ++ rest) ZSTDLIB_API)
      with (ZSTDLIB_STATIC_API ++ rest).
    now rewrite strip_prefix_app.
  - change (startswith_any (ZDICTLIB_STATIC_API ++ rest) dropped_prefixes) with false.
    change (startswith (ZDICTLIB_STATIC_API ++ rest) INCLUDE_LIMITS) with false.
    cbn [export_prefixes fold_left].
    change (strip_prefix (ZDICTLIB_STATIC_API ++ rest) ZSTDLIB_API)
      with (ZDICTLIB_STATIC_API ++ rest).
    change (strip_prefix (ZDICTLIB_STATIC_API ++ rest) ZSTDLIB_STATIC_API)
      with (ZDICTLIB_STATIC_API ++ rest).
    now rewrite strip_prefix_app.
Qed.

(** ** [normalize_output] *)

Lemma contains_unfold (n l : bytes) :
  contains n l =
  startswith l n || match l with [] => false | _ :: cs => contains n cs end.
Proof. destruct l; reflexivity. Qed.

Lemma startswith_contains (n l : bytes) :
  startswith l n = true -> contains n l = true.
Proof. intros H; rewrite contains_unfold, H; reflexivity. Qed.

Lemma contains_iff (n l : bytes) :
  contains n l = true <-> exists a b, l = a ++ n ++ b.
Proof.
  split.
  - induction l as [|c l IH]; rewrite contains_unfold; intros H;
      apply orb_prop in H as [H|H].
    + apply startswith_inv in H as [rest ->]; now exists [], rest.
    + discriminate.
    + apply startswith_inv in H as [rest ->]; now exists [], rest.
    + destruct (IH H) as [a [b ->]]; now exists (c :: a), b.
  - intros [a [b ->]]; induction a as [|x a IH].
    + apply startswith_contains; exact (startswith_app n b).
    + cbn [app]; rewrite contains_unfold, IH; apply orb_true_r.
Qed.

Lemma normalize_output_kept (output : bytes) :
  normalize_output output = join [LF] (kept normalize_line (splitlines output)).
Proof. unfold normalize_output; now rewrite normalize_lines_kept. Qed.

(** What [normalize_line] does with a line, in one statement. *)
Lemma normalize_line_cases (line : bytes) :
  let l := strip_prefix line VISIBILITY in
  (normalize_line line = None /\
   (startswith l ATTR_DEPRECATED = true \/ contains DECLSPEC_DEPRECATED l = true \/
    startswith l ATTR_UNUSED = true)) \/
  (normalize_line line = Some l /\
   startswith l ATTR_DEPRECATED = false /\ contains DECLSPEC_DEPRECATED l = false /\
   startswith l ATTR_UNUSED = false).
Proof.
  unfold normalize_line; cbn zeta.
  destruct (startswith (strip_prefix line VISIBILITY) ATTR_DEPRECATED); [left; auto|].
  destruct (contains DECLSPEC_DEPRECATED (strip_prefix line VISIBILITY)); [left; auto|].
  destruct (startswith (strip_prefix line VISIBILITY) ATTR_UNUSED); [left; auto|].
  right; auto.
Qed.

(** C5, against the claim: the line begins with none of the four markers,
    and it is dropped, because the MSVC marker is looked for anywhere in the
    line. *)
Lemma declspec_is_matched_anywhere :
  startswith declspec_inside VISIBILITY = false /\
  startswith declspec_inside ATTR_DEPRECATED = false /\
  startswith declspec_inside DECLSPEC_DEPRECATED = false /\
  startswith declspec_inside ATTR_UNUSED = false /\
  normalize_line declspec_inside = None /\
  normalize_output (B "int a;" ++ [LF] ++ declspec_inside ++ [LF]) = B "int a;".
Proof. repeat (split; [reflexivity|]); reflexivity. Qed.

(** C5, amended.  [normalize_output] treats each line on its own.  After a
    leading visibility wrapper is removed, a line is dropped if and only if it
    begins with the GCC deprecation marker, or holds the MSVC deprecation
    marker at any position, or begins with the unused marker.  A line that
    begins with neither the wrapper nor the GCC markers and does not hold the
    MSVC marker is emitted as it is. *)
Theorem normalize_output_acts_per_line (output line : bytes) :
  normalize_output output = join [LF] (kept normalize_line (splitlines output)) /\
  (normalize_line line = None <->
   (exists r, strip_prefix line VISIBILITY = ATTR_DEPRECATED ++ r) \/
   (exists a b, strip_prefix line VISIBILITY = a ++ DECLSPEC_DEPRECATED ++ b) \/
   (exists r, strip_prefix line VISIBILITY = ATTR_UNUSED ++ r)) /\
  (startswith line VISIBILITY = false ->
   startswith line ATTR_DEPRECATED = false ->
   contains DECLSPEC_DEPRECATED line = false ->
   startswith line ATTR_UNUSED = false ->
   normalize_line line = Some line).
Proof.
  split; [apply normalize_output_kept|split].
  - rewrite <- !startswith_iff, <- contains_iff.
    destruct (normalize_line_cases line) as [[-> H]|[-> [H1 [H2 H3]]]].
    + tauto.
    + split; [discriminate|]. intros [H|[H|H]]; congruence.
  - intros Hv Hd Hm Hu.
    unfold normalize_line, strip_prefix; now rewrite Hv, Hd, Hm, Hu.
Qed.

(** C5, amended, at a plain declaration. *)
Lemma normalize_output_acts_per_line_witness :
  normalize_line (B "size_t ZSTD_compressBound(size_t srcSize);")
  = Some (B "size_t ZSTD_compressBound(size_t srcSize);").
Proof.
  apply (normalize_output_acts_per_line [] (B "size_t ZSTD_compressBound(size_t srcSize);"));
    reflexivity.
Defined.




(** ** Decoding the assembled bytes *)

Lemma decode_latin1 (s : bytes) : decode Latin1 s = Some (map Byte.to_N s).
Proof. induction s as [|x s IH]; [reflexivity|]; cbn [decode decode_byte map]; now rewrite IH. Qed.

Example decode_ascii_fails : decode ASCII [x41; xe9] = None /\ decode Latin1 [x41; xe9] = Some [65; 233]%N.
Proof. split; reflexivity. Qed.

(** [assemble] ends the way the loop over the headers ended. *)
Lemma assemble_eq (host : Host) (headers : list path) (w : World) :
  assemble host headers w =
  match process_headers host headers [] w with
  | (Returns sources, w') => (Returns (map Byte.to_N (cdef_bytes sources)), w')
  | (Raises e, w') => (Raises e, w')
  end.
Proof.
  unfold assemble, bind.
  destruct (process_headers host headers [] w) as [[sources|e] w']; [|reflexivity].
  now rewrite decode_latin1.
Qed.

(** C10.  The assembled bytes are decoded as latin-1, which has a character
    for every byte: the decoding of any byte sequence succeeds, and [assemble]
    ends the way the loop over the headers ended, with the decoded text when
    the loop returned; [UnicodeDecodeError] is never raised by this step. *)
Theorem assembled_bytes_always_decode (host : Host) (headers : list path)
        (w : World) (s : bytes) :
  decode Latin1 s = Some (map Byte.to_N s) /\
  assemble host headers w =
  match process_headers host headers [] w with
  | (Returns sources, w') => (Returns (map Byte.to_N (cdef_bytes sources)), w')
  | (Raises e, w') => (Raises e, w')
  end.
Proof. split; [apply decode_latin1|apply assemble_eq]. Qed.

(** ** The macros put back by [get_ffi] *)

Lemma span_spec (p : byte -> bool) (s a b : bytes) :
  span p s = (a, b) ->
  s = a ++ b /\ forallb p a = true /\
  match b with [] => True | c :: _ => p c = false end.
Proof.
  revert a b; induction s as [|c s IH]; intros a b H; simpl in H.
  - injection H as <- <-; auto.
  - destruct (p c) eqn:E.
    + destruct (span p s) as [a' b'] eqn:Es; injection H as <- <-.
      destruct (IH _ _ eq_refl) as [-> [Ha Hb]]; simpl; rewrite E; auto.
    + injection H as <- <-; simpl; auto.
Qed.

Lemma span_app (p : byte -> bool) (a : bytes) (c : byte) (r : bytes) :
  forallb p a = true -> p c = false -> span p (a ++ c :: r) = (a, c :: r).
Proof.
  intros Ha Hc; induction a as [|x a IH]; simpl.
  - now rewrite Hc.
  - simpl in Ha; apply andb_prop in Ha as [-> Ha]; now rewrite IH.
Qed.

(** [DEFINE.match] succeeds exactly on [#define NAME ] followed by anything,
    [NAME] a non-empty run of identifier bytes. *)
Lemma DEFINE_match_iff (line g0 g1 : bytes) :
  DEFINE_match line = Some (g0, g1) <->
  g1 <> [] /\ forallb ident_byte g1 = true /\
  g0 = B "#define " ++ g1 ++ [SP] /\ exists rest, line = g0 ++ rest.
Proof.
  unfold DEFINE_match; split.
  - destruct (startswith line (B "#define ")) eqn:Es; [|discriminate].
    apply startswith_inv in Es as [tail ->]; rewrite drop_len_app.
    destruct (span ident_byte tail) as [name rest] eqn:Esp.
    apply span_spec in Esp as [-> [Hn _]].
    destruct name as [|n0 name]; [discriminate|].
    destruct rest as [|c rest]; [discriminate|].
    destruct (Byte.eqb c SP) eqn:Ec; [|discriminate].
    apply Byte.byte_dec_bl in Ec; subst c.
    intros H; injection H as <- <-.
    repeat split; auto; [discriminate|].
    exists rest; simpl; now rewrite <- app_assoc.
  - intros [Hne [Hid [-> [rest ->]]]].
    rewrite <- !app_assoc, startswith_app, drop_len_app.
    cbn [app]; rewrite span_app by (auto; reflexivity).
    destruct g1; [congruence|reflexivity].
Qed.

Lemma count_app (p : bytes -> bool) (l1 l2 : list bytes) :
  count p (l1 ++ l2) = count p l1 + count p l2.
Proof. unfold count; now rewrite filter_app, length_app. Qed.

Lemma placeholder_inj (n m : bytes) : placeholder n = placeholder m -> n = m.
Proof.
  unfold placeholder; rewrite <- !app_assoc; intros H.
  apply app_inv_head in H; now apply app_inv_tail in H.
Qed.

Lemma macro_line_iff (line p : bytes) :
  macro_line line = Some p <->
  exists name rest,
    strip line = B "#define " ++ name ++ [SP] ++ rest /\
    name <> [] /\ forallb ident_byte name = true /\
    excluded name = false /\ p = placeholder name.
Proof.
  unfold macro_line, excluded; split.
  - destruct (DEFINE_match (strip line)) as [[g0 g1]|] eqn:E; [|discriminate].
    apply DEFINE_match_iff in E as [Hne [Hid [-> [rest Hrest]]]].
    destruct (bytes_eqb g1 GUARD_NAME) eqn:Eg; [discriminate|].
    destruct (denylisted g1) eqn:Ed; [discriminate|].
    intros H; injection H as <-.
    exists g1, rest; repeat split; auto.
    + now rewrite Hrest, <- !app_assoc.
    + now rewrite Eg, Ed.
  - intros [name [rest [Hs [Hne [Hid [Hex ->]]]]]].
    assert (E : DEFINE_match (strip line) = Some (B "#define " ++ name ++ [SP], name)).
    { apply DEFINE_match_iff; repeat split; auto.
      exists rest; now rewrite Hs, <- !app_assoc. }
    rewrite E; apply orb_false_elim in Hex as [-> ->]; reflexivity.
Qed.

Lemma excluded_iff (name : bytes) :
  excluded name = true <->
  name = GUARD_NAME \/ name = B "ZSTD_LIB_VERSION" \/ name = B "ZSTD_VERSION_STRING".
Proof.
  unfold excluded, denylisted, denylist; cbn [existsb].
  rewrite !orb_true_iff, !bytes_eqb_eq; intuition discriminate.
Qed.

(** What one header line contributes to the number of placeholders of
    [name]. *)
Lemma macro_line_count (name line : bytes) :
  count (bytes_eqb (placeholder name))
        (match macro_line line with Some y => [y] | None => [] end) =
  if excluded name then 0 else if defines name line then 1 else 0.
Proof.
  unfold macro_line, defines.
  destruct (DEFINE_match (strip line)) as [[g0 g1]|] eqn:E;
    [|destruct (excluded name); reflexivity].
  apply DEFINE_match_iff in E as [_ [_ [-> _]]].
  fold (placeholder g1).
  destruct (bytes_eqb g1 name) eqn:En.
  - apply bytes_eqb_eq in En; subst g1; unfold excluded.
    destruct (bytes_eqb name GUARD_NAME); [reflexivity|].
    destruct (denylisted name); [reflexivity|].
    unfold count; cbn [filter orb]; now rewrite bytes_eqb_refl.
  - assert (Hp : bytes_eqb (placeholder name) (placeholder g1) = false).
    { destruct (bytes_eqb (placeholder name) (placeholder g1)) eqn:Ep; auto.
      apply bytes_eqb_eq, placeholder_inj in Ep; subst.
      now rewrite bytes_eqb_refl in En. }
    destruct (bytes_eqb g1 GUARD_NAME); [destruct (excluded name); reflexivity|].
    destruct (denylisted g1); [destruct (excluded name); reflexivity|].
    unfold count; cbn [filter]; rewrite Hp.
    destruct (excluded name); reflexivity.
Qed.

Lemma kept_cons {A C} (f : A -> option C) (x : A) (l : list A) :
  kept f (x :: l) = match f x with Some y => [y] | None => [] end ++ kept f l.
Proof. reflexivity. Qed.

Lemma count_placeholders (name : bytes) (ls : list bytes) :
  count (bytes_eqb (placeholder name)) (kept macro_line ls) =
  if excluded name then 0 else count (defines name) ls.
Proof.
  induction ls as [|l ls IH].
  - destruct (excluded name); reflexivity.
  - rewrite kept_cons, count_app, macro_line_count, IH.
    destruct (excluded name); [reflexivity|].
    unfold count; cbn [filter]; destruct (defines name l); reflexivity.
Qed.

Lemma ident_not_linebreak (c : byte) : ident_byte c = true -> linebreak c = false.
Proof.
  intros H; destruct (linebreak c) eqn:E; [|reflexivity].
  unfold linebreak in E; apply orb_prop in E as [E|E];
    apply Byte.byte_dec_bl in E; subst c; discriminate H.
Qed.

Lemma placeholder_clean (name : bytes) :
  forallb ident_byte name = true -> clean (placeholder name).
Proof.
  intros H; unfold placeholder.
  repeat apply clean_app;
    try (repeat constructor; reflexivity).
  apply Forall_forall; intros c Hc.
  apply ident_not_linebreak.
  rewrite forallb_forall in H; auto.
Qed.

Lemma placeholder_strip (name : bytes) : strip (placeholder name) = placeholder name.
Proof.
  unfold strip.
  change (lstrip (placeholder name)) with (placeholder name).
  unfold rstrip, placeholder.
  rewrite (rev_app_distr _ (B " ...")).
  change (lstrip (rev (B " ...") ++ rev (B "#define " ++ name ++ [SP])))
    with (rev (B " ...") ++ rev (B "#define " ++ name ++ [SP])).
  now rewrite <- rev_app_distr, rev_involutive.
Qed.

(** The placeholders are lines of their own and survive the filter. *)
Lemma cdeflines_placeholders (ls : list bytes) :
  cdeflines (kept macro_line ls) = kept macro_line ls.
Proof.
  rewrite cdeflines_flat_map.
  assert (H : forall p, In p (kept macro_line ls) ->
                        filter nonblank (splitlines p) = [p]).
  { intros p Hp; apply in_kept in Hp as [line [_ Hm]].
    apply macro_line_iff in Hm as [name [rest [_ [_ [Hid [_ ->]]]]]].
    rewrite splitlines_clean_line by now apply placeholder_clean.
    change (truthy (placeholder name)) with true; cbn [filter].
    unfold nonblank; rewrite placeholder_strip; reflexivity. }
  induction (kept macro_line ls) as [|p ps IH]; [reflexivity|].
  cbn [flat_map]; rewrite H by now left.
  cbn [app]; f_equal; apply IH; intros; apply H; now right.
Qed.

(** C1, amended.  A header line puts back a macro exactly when, trimmed, it
    is [#define NAME ] followed by anything, [NAME] being a non-empty run of
    letters, digits and underscores other than [ZSTD_STATIC_LINKING_ONLY],
    [ZSTD_LIB_VERSION] and [ZSTD_VERSION_STRING]; what is appended is the
    matched text, space included, followed by [ ...], that is the line
    [#define NAME  ...].  Each such line of the header adds one such line to
    the assembled text, so a macro defined on k lines has k placeholders; the
    three excluded names add none. *)
Theorem reinjection_adds_a_placeholder_per_define
        (sources header_lines : list bytes) (name line p : bytes) :
  (macro_line line = Some p <->
   exists n rest,
     strip line = B "#define " ++ n ++ [SP] ++ rest /\
     n <> [] /\ forallb ident_byte n = true /\
     excluded n = false /\ p = B "#define " ++ n ++ B "  ...") /\
  (excluded name = true <->
   name = B "ZSTD_STATIC_LINKING_ONLY" \/ name = B "ZSTD_LIB_VERSION" \/
   name = B "ZSTD_VERSION_STRING") /\
  count (bytes_eqb (B "#define " ++ name ++ B "  ..."))
        (splitlines (cdef_bytes (reinject sources header_lines))) =
  count (bytes_eqb (B "#define " ++ name ++ B "  ..."))
        (splitlines (cdef_bytes sources)) +
  (if excluded name then 0 else count (defines name) header_lines).
Proof.
  assert (Hp : forall n, B "#define " ++ n ++ B "  ..." = placeholder n).
  { intros n; unfold placeholder; now rewrite <- !app_assoc. }
  split; [|split].
  - rewrite macro_line_iff; split; intros [n [rest H]]; exists n, rest;
      [rewrite Hp|rewrite <- Hp]; exact H.
  - apply excluded_iff.
  - rewrite Hp, !splitlines_cdef_bytes, reinject_kept, cdeflines_app, count_app.
    now rewrite cdeflines_placeholders, count_placeholders.
Qed.

(** ** [preprocess] and its temporary file *)

Lemma first_fresh_free (w : World) (names : list path) (n : path) (rest : list path) :
  first_fresh w names = Some (n, rest) -> files w n = None.
Proof.
  induction names as [|m names IH]; simpl; [discriminate|].
  unfold exists_file; destruct (files w m) eqn:E; [exact IH|].
  intros H; injection H as <- <-; exact E.
Qed.

(** Every way [preprocess] can end, with the world it leaves. *)
Lemma preprocess_eq (host : Host) (p : path) (w : World) :
  preprocess host p w =
  match files w p with
  | None => (Raises (FileNotFoundError p), w)
  | Some content =>
      match first_fresh w (tmp_names w) with
      | None => (Raises FileExistsError, mkWorld (files w) [] (disk_full w))
      | Some (n, rest) =>
          if disk_full w && truthy (rewrite_header content)
          then (Raises (OSError "write"), created n rest w)
          else
            let w' := set_file n None
                        (set_file n (Some (rewrite_header content)) (created n rest w)) in
            match cc host n (Some (rewrite_header content)) with
            | None => (Raises (OSError "Popen"), w')
            | Some (status, output) =>
                if (status =? 0)%Z then (Returns output, w')
                else (Raises (Exception "preprocessor exited with error"), w')
            end
      end
  end.
Proof.
  unfold preprocess, bind, read_file.
  destruct (files w p) as [content|]; [|reflexivity].
  unfold mkstemp.
  destruct (first_fresh w (tmp_names w)) as [[n rest]|]; [|reflexivity].
  fold (created n rest w); fold (rewrite_header content).
  unfold os_write; change (disk_full (created n rest w)) with (disk_full w).
  destruct (disk_full w && truthy (rewrite_header content)); [reflexivity|].
  unfold os_close, ret, try_finally, run_preprocessor, bind, os_unlink, exists_file.
  cbn [files set_file]; rewrite String.eqb_refl.
  destruct (cc host n (Some (rewrite_header content))) as [[status output]|];
    [destruct (status =? 0)%Z|];
    cbn [files set_file raise]; rewrite String.eqb_refl; reflexivity.
Qed.

Lemma removed_again (n : path) (rest : list path) (data : bytes) (w : World) (q : path) :
  files w n = None ->
  files (set_file n None (set_file n (Some data) (created n rest w))) q = files w q.
Proof.
  intros Hn; cbn [files set_file created].
  destruct (String.eqb_spec q n) as [->|_]; auto.
Qed.


(** X1.  With room on the device, the temporary file is gone however
    [preprocess] ends, by return, by a non-zero exit status or by an
    exception of [Popen]: every name holds after the call what it held
    before, the name drawn for the temporary file included. *)
Theorem preprocess_restores_files (host : Host) (p : path) (w : World) (q : path) :
  disk_full w = false ->
  files (snd (preprocess host p w)) q = files w q.
Proof.
  intros Hd; rewrite preprocess_eq, Hd; cbn [andb].
  destruct (files w p) as [content|]; [|reflexivity].
  destruct (first_fresh w (tmp_names w)) as [[n rest]|] eqn:Ef; [|reflexivity].
  apply first_fresh_free in Ef; cbn zeta.
  destruct (cc host n (Some (rewrite_header content))) as [[status output]|];
    [destruct (status =? 0)%Z|]; cbn [snd]; now apply removed_again.
Qed.

(** ** Two runs of the pipeline *)



(** ** Runs on concrete hosts *)

Example scenario_run : fst (assemble toy_host ["zstd.h"] world_a) = Returns scenario_text.
Proof. reflexivity. Qed.


(** X1 at the scenario header and the name of its temporary file. *)
Lemma preprocess_restores_files_witness :
  files (snd (preprocess toy_host "zstd.h" world_a)) "/tmp/tmpa1b2c3.h" =
  files world_a "/tmp/tmpa1b2c3.h".
Proof.
  apply (preprocess_restores_files toy_host "zstd.h" world_a "/tmp/tmpa1b2c3.h").
  reflexivity.
Defined.

(** C7, on the code: when [os.write] fails, the exception leaves
    [preprocess] before the [try] is entered, and the temporary file that
    [mkstemp] created stays behind. *)
Theorem temp_file_outlives_failed_write :
  files world_full "/tmp/tmpa1b2c3.h" = None /\
  fst (preprocess toy_host "zstd.h" world_full) = Raises (OSError "write") /\
  files (snd (preprocess toy_host "zstd.h" world_full)) "/tmp/tmpa1b2c3.h" = Some [].
Proof. split; [|split]; reflexivity. Qed.

(** C1, against the claim: the assembled text has no line [FOO ...], no line
    that holds [FOO ...], and two placeholders for [FOO], not one. *)
Lemma placeholder_is_neither_bare_nor_unique :
  fst (assemble toy_host ["zstd.h"] world_foo) = Returns (map Byte.to_N foo_text) /\
  count (bytes_eqb (B "FOO ...")) (splitlines foo_text) = 0 /\
  count (contains (B "FOO ...")) (splitlines foo_text) = 0 /\
  count (bytes_eqb (B "#define FOO  ...")) (splitlines foo_text) = 2.
Proof. repeat (split; [reflexivity|]); reflexivity. Qed.

(** ** System mode without a marker *)




(** * Further properties of the code *)

(** ** Reading and rewriting a header *)

Lemma join_nil_concat (parts : list bytes) : join [] parts = concat parts.
Proof.
  induction parts as [|p ps IH]; [reflexivity|].
  destruct ps as [|q ps]; [cbn; now rewrite app_nil_r|].
  rewrite join_cons, IH; reflexivity.
Qed.

Lemma iter_fold (s : bytes) (ls : list bytes) (l : bytes) :
  concat (fst (fold_left iter_step s (ls, l))) ++ snd (fold_left iter_step s (ls, l))
  = concat ls ++ l ++ s.
Proof.
  revert ls l; induction s as [|c s IH]; intros ls l.
  - cbn; now rewrite app_nil_r.
  - cbn [fold_left iter_step]; destruct (Byte.eqb c LF); rewrite IH.
    + rewrite concat_app; cbn [concat app]; now rewrite app_nil_r, <- !app_assoc.
    + now rewrite <- !app_assoc.
Qed.

(** The lines a binary file is iterated into, put end to end, are the
    file: iterating loses and adds no byte. *)
Lemma file_lines_join (content : bytes) : join [] (file_lines content) = content.
Proof.
  rewrite join_nil_concat; unfold file_lines.
  set (r := fold_left iter_step content ([], [])).
  assert (H : concat (fst r) ++ snd r = content) by apply (iter_fold content [] []).
  destruct r as [ls l]; cbn [fst snd] in H.
  rewrite concat_app, <- H; f_equal.
  destruct l; cbn [truthy concat app]; now rewrite ?app_nil_r.
Qed.

Lemma rewrite_line_plain (line : bytes) :
  startswith_any line special_prefixes = false -> rewrite_line line = Some line.
Proof.
  unfold startswith_any, special_prefixes; rewrite !existsb_app; intros H.
  apply orb_false_elim in H as [Hd H]; apply orb_false_elim in H as [Hl He].
  cbn [existsb] in Hl, He.
  apply orb_false_elim in Hl as [Hl _].
  apply orb_false_elim in He as [H1 He]; apply orb_false_elim in He as [H2 He].
  apply orb_false_elim in He as [H3 _].
  unfold rewrite_line, startswith_any; rewrite Hd, Hl.
  cbn [export_prefixes fold_left]; unfold strip_prefix; now rewrite H1, H2, H3.
Qed.

Lemma kept_id (f : bytes -> option bytes) (ls : list bytes) :
  (forall l, In l ls -> f l = Some l) -> kept f ls = ls.
Proof.
  induction ls as [|l ls IH]; intros H; [reflexivity|].
  rewrite kept_cons, (H l) by now left.
  cbn [app]; f_equal; apply IH; intros; apply H; now right.
Qed.

(** X2.  A header none of whose lines begins with one of the seven prefixes
    of [preprocess] (the three dropped directives, the include of
    [limits.h], the three export tokens) is handed to the preprocessor byte
    for byte. *)
Theorem rewrite_header_plain (content : bytes) :
  (forall line, In line (file_lines content) ->
                startswith_any line special_prefixes = false) ->
  rewrite_header content = content.
Proof.
  intros H; unfold rewrite_header.
  rewrite rewrite_lines_kept, kept_id; [apply file_lines_join|].
  intros l Hl; now apply rewrite_line_plain, H.
Qed.

(** X2 at a header of two declarations, the second without final newline. *)
Lemma rewrite_header_plain_witness :
  rewrite_header (B "typedef struct ZSTD_CCtx_s ZSTD_CCtx;" ++ [LF] ++ B "int x;") =
  B "typedef struct ZSTD_CCtx_s ZSTD_CCtx;" ++ [LF] ++ B "int x;".
Proof.
  apply (rewrite_header_plain
           (B "typedef struct ZSTD_CCtx_s ZSTD_CCtx;" ++ [LF] ++ B "int x;")).
  intros line [<-|[<-|[]]]; reflexivity.
Defined.

(** X3.  The rewriting accounts for every line: the lines written to the
    temporary file and the lines that begin with one of the three dropped
    directives are, together, as many as the lines of the header. *)
Theorem rewrite_lines_conservation (ls : list bytes) :
  List.length (rewrite_lines ls) +
  count (fun l => startswith_any l dropped_prefixes) ls = List.length ls.
Proof.
  rewrite rewrite_lines_kept; unfold count.
  induction ls as [|l ls IH]; [reflexivity|].
  rewrite kept_cons, length_app; cbn [filter]; unfold rewrite_line at 1.
  destruct (startswith_any l dropped_prefixes); cbn [List.length Nat.add] in *.
  - now rewrite <- plus_n_Sm, IH.
  - now rewrite IH.
Qed.

(** ** The ways [preprocess] and [get_ffi] end *)


Lemma preprocess_keeps_existing (host : Host) (p : path) (w : World)
      (q : path) (c : bytes) :
  files w q = Some c -> files (snd (preprocess host p w)) q = Some c.
Proof.
  intros Hq; rewrite preprocess_eq.
  destruct (files w p) as [content|]; [|exact Hq].
  destruct (first_fresh w (tmp_names w)) as [[n rest]|] eqn:Ef; [|exact Hq].
  apply first_fresh_free in Ef.
  assert (Hn : String.eqb q n = false).
  { destruct (String.eqb_spec q n) as [->|]; [congruence|reflexivity]. }
  destruct (disk_full w && truthy (rewrite_header content)).
  - cbn [snd files created]; now rewrite Hn.
  - cbn zeta.
    destruct (cc host n (Some (rewrite_header content))) as [[status output]|];
      [destruct (status =? 0)%Z|]; cbn [snd]; rewrite removed_again; auto.
Qed.

Lemma read_file_world (p : path) (w : World) : snd (read_file p w) = w.
Proof. unfold read_file; destruct (files w p); reflexivity. Qed.

Lemma process_headers_keeps_existing (host : Host) (headers : list path) :
  forall (sources : list bytes) (w : World) (q : path) (c : bytes),
    files w q = Some c ->
    files (snd (process_headers host headers sources w)) q = Some c.
Proof.
  induction headers as [|h rest IH]; intros sources w q c Hq; [exact Hq|].
  cbn [process_headers]; unfold bind.
  pose proof (preprocess_keeps_existing host h w q c Hq) as Hp.
  destruct (preprocess host h w) as [[out|e] wa]; cbn [snd] in Hp; [|exact Hp].
  pose proof (read_file_world h wa) as Hr.
  destruct (read_file h wa) as [[content|e] wb]; cbn [snd] in Hr; subst wb;
    [|exact Hp].
  now apply IH.
Qed.

(** X5.  However [get_ffi] ends, no file that existed before the call is
    changed or removed by it: the headers and every other file hold after the
    call what they held before. *)
Theorem get_ffi_keeps_existing_files (host : Host) (system_zstd : bool)
        (w : World) (q : path) (c : bytes) :
  files w q = Some c ->
  files (snd (get_ffi host system_zstd w)) q = Some c.
Proof.
  intros Hq; unfold get_ffi, bind.
  assert (Hl : snd (locate_headers host system_zstd w) = w).
  { unfold locate_headers; destruct system_zstd; [destruct (system_markers host)|];
      reflexivity. }
  destruct (locate_headers host system_zstd w) as [[headers|e] w0];
    cbn [snd] in Hl; subst w0; [|exact Hq].
  rewrite assemble_eq.
  pose proof (process_headers_keeps_existing host headers [] w q c Hq) as Hp.
  destruct (process_headers host headers [] w) as [[sources|e] w1];
    cbn [snd] in Hp; exact Hp.
Qed.

(** X5 at the header of the scenario, in vendored mode with a full device. *)
Lemma get_ffi_keeps_existing_files_witness :
  files (snd (get_ffi toy_host false vendored_full)) "/src/zstd/zstd.h"
  = Some scenario_header.
Proof.
  apply (get_ffi_keeps_existing_files toy_host false vendored_full "/src/zstd/zstd.h").
  reflexivity.
Defined.

(** ** The lines of the normalized output and of the assembled text *)

Lemma splitlines_join_trim (ks : list bytes) :
  Forall clean ks -> splitlines (join [LF] ks) = trim_last ks.
Proof.
  induction ks as [|k ks IH]; intros H; [reflexivity|].
  inversion H as [|? ? Hk Hks]; subst.
  destruct ks as [|k2 ks].
  - cbn [join trim_last]; now apply splitlines_clean_line.
  - rewrite join_cons; cbn [app].
    rewrite splitlines_clean_cons, IH by auto; reflexivity.
Qed.

Lemma trim_last_length (ks : list bytes) :
  List.length (trim_last ks) <= List.length ks.
Proof.
  induction ks as [|k ks IH]; [apply Nat.le_refl|].
  destruct ks as [|k2 ks].
  - cbn [trim_last]; destruct (truthy k); cbn; auto.
  - change (trim_last (k :: k2 :: ks)) with (k :: trim_last (k2 :: ks)).
    cbn [List.length] in *; now apply le_n_S.
Qed.

Lemma kept_length {A C} (f : A -> option C) (l : list A) :
  List.length (kept f l) <= List.length l.
Proof.
  induction l as [|x l IH]; [apply Nat.le_refl|].
  rewrite kept_cons, length_app; destruct (f x); cbn [List.length Nat.add].
  - now apply le_n_S.
  - now apply Nat.le_le_succ_r.
Qed.

Lemma normalized_lines_clean (ls : list bytes) :
  Forall clean ls -> Forall clean (kept normalize_line ls).
Proof.
  intros H; apply Forall_forall; intros k Hk.
  apply in_kept in Hk as [line [Hin Hn]].
  destruct (normalize_line_cases line) as [[E _]|[E _]]; rewrite E in Hn;
    [discriminate|injection Hn as <-].
  apply clean_strip_prefix; rewrite Forall_forall in H; auto.
Qed.

Lemma splitlines_all_clean (s : bytes) : Forall clean (splitlines s).
Proof. apply Forall_forall; intros l; apply splitlines_clean. Qed.

(** X6.  The lines of the result of [normalize_output] are the lines its
    rule keeps, as the rule leaves them and in the order of the input, except
    that a last line that is empty is not a line of the result any more; so the
    result never has more lines than the input. *)
Theorem normalize_output_lines (output : bytes) :
  splitlines (normalize_output output) =
    trim_last (kept normalize_line (splitlines output)) /\
  List.length (splitlines (normalize_output output)) <= List.length (splitlines output).
Proof.
  assert (E : splitlines (normalize_output output) =
              trim_last (kept normalize_line (splitlines output))).
  { rewrite normalize_output_kept.
    apply splitlines_join_trim, normalized_lines_clean, splitlines_all_clean. }
  split; [exact E|].
  rewrite E; eapply Nat.le_trans; [apply trim_last_length|apply kept_length].
Qed.

Lemma unmarked_kept (l : bytes) : unmarked l = true -> normalize_line l = Some l.
Proof.
  unfold unmarked; rewrite !andb_true_iff, !negb_true_iff.
  intros [[[Hv Hd] Hm] Hu].
  unfold normalize_line, strip_prefix; now rewrite Hv, Hd, Hm, Hu.
Qed.

(** X7.  A text of non-empty lines separated by [\n], none of which begins
    with the visibility wrapper, the GCC deprecation marker or the unused
    marker or holds the MSVC deprecation marker, is left as it is by
    [normalize_output]. *)
Theorem normalize_output_fixed_point (ls : list bytes) :
  Forall (fun l => clean l /\ truthy l = true /\ unmarked l = true) ls ->
  normalize_output (join [LF] ls) = join [LF] ls.
Proof.
  intros H; rewrite normalize_output_kept.
  rewrite splitlines_join.
  - rewrite kept_id; [reflexivity|].
    intros l Hl; rewrite Forall_forall in H.
    destruct (H l Hl) as [_ [_ Hu]]; now apply unmarked_kept.
  - eapply Forall_impl; [|exact H]; cbn beta; tauto.
Qed.

(** X7 at two declarations of [zstd.h]. *)
Lemma normalize_output_fixed_point_witness :
  normalize_output (join [LF] [B "unsigned ZSTD_versionNumber(void);";
                               B "size_t ZSTD_compressBound(size_t srcSize);"]) =
  join [LF] [B "unsigned ZSTD_versionNumber(void);";
             B "size_t ZSTD_compressBound(size_t srcSize);"].
Proof.
  apply (normalize_output_fixed_point
           [B "unsigned ZSTD_versionNumber(void);";
            B "size_t ZSTD_compressBound(size_t srcSize);"]).
  repeat constructor; try reflexivity.
Defined.

Lemma filter_twice {A} (p : A -> bool) (l : list A) :
  filter p (filter p l) = filter p l.
Proof.
  induction l as [|x l IH]; [reflexivity|].
  cbn [filter]; destruct (p x) eqn:E; [cbn [filter]; rewrite E, IH|]; auto.
Qed.

(** X8.  Assembling is idempotent: the assembled bytes, assembled again as a
    single source, are the same bytes. *)
Theorem cdef_bytes_idempotent (sources : list bytes) :
  cdef_bytes [cdef_bytes sources] = cdef_bytes sources.
Proof.
  unfold cdef_bytes at 1.
  rewrite cdeflines_filter; cbn [join].
  rewrite splitlines_cdef_bytes; unfold cdef_bytes; f_equal.
  rewrite cdeflines_filter; apply filter_twice.
Qed.

(** X9.  The lines of the text assembled from two lists of sources, one
    after the other, are the lines assembled from the first list followed by
    the lines assembled from the second: what a header contributes stays
    together and in the order of the headers. *)
Theorem assembled_lines_in_order (s1 s2 : list bytes) :
  splitlines (cdef_bytes (s1 ++ s2)) =
  splitlines (cdef_bytes s1) ++ splitlines (cdef_bytes s2).
Proof. rewrite !splitlines_cdef_bytes; apply cdeflines_app. Qed.

Lemma clean_not_break (k : bytes) (c : byte) :
  clean k -> In c k -> c <> LF /\ c <> CR.
Proof.
  unfold clean; rewrite Forall_forall; intros H Hc.
  specialize (H c Hc); unfold linebreak in H.
  apply orb_false_elim in H as [H1 H2].
  split; intros ->; [now rewrite byte_eqb_refl in H1|now rewrite byte_eqb_refl in H2].
Qed.

Lemma hd_error_app {A} (a b : list A) : a <> [] -> hd_error (a ++ b) = hd_error a.
Proof. destruct a; [congruence|reflexivity]. Qed.

Lemma join_lines_not_empty (k : bytes) (ks : list bytes) :
  truthy k = true -> join [LF] (k :: ks) <> [].
Proof.
  destruct k as [|c k]; [discriminate|]; intros _.
  destruct ks; cbn; discriminate.
Qed.

(** The shape of non-empty lines joined with [\n]. *)
Lemma join_lines_shape (ks : list bytes) :
  Forall (fun k => clean k /\ truthy k = true) ks ->
  Forall (fun c => c <> CR) (join [LF] ks) /\
  hd_error (join [LF] ks) <> Some LF /\
  hd_error (rev (join [LF] ks)) <> Some LF.
Proof.
  induction ks as [|k ks IH]; intros H.
  - cbn; repeat split; [constructor|discriminate|discriminate].
  - inversion H as [|? ? [Hk Ht] Hks]; subst.
    assert (Hcr : Forall (fun c => c <> CR) k).
    { apply Forall_forall; intros c Hc; now apply (clean_not_break k). }
    assert (Hhd : hd_error k <> Some LF).
    { destruct k as [|c k]; [discriminate|]; cbn; intros E; injection E as ->.
      destruct (clean_not_break (LF :: k) LF Hk); [now left|congruence]. }
    assert (Hlast : hd_error (rev k) <> Some LF).
    { destruct (rev k) as [|c r] eqn:Er; [discriminate|].
      cbn; intros E; injection E as ->.
      destruct (clean_not_break k LF Hk); [|congruence].
      apply in_rev; rewrite Er; now left. }
    destruct ks as [|k2 ks]; [cbn [join]; auto|].
    destruct (IH Hks) as [IH1 [_ IH3]].
    rewrite join_cons; repeat split.
    + apply Forall_app; split; [exact Hcr|].
      apply Forall_app; split; [repeat constructor; discriminate|exact IH1].
    + rewrite hd_error_app; [exact Hhd|]. destruct k; [discriminate|discriminate].
    + rewrite !rev_app_distr, <- app_assoc, hd_error_app; [exact IH3|].
      inversion Hks as [|? ? [_ Ht2] _]; subst.
      intros E; apply (f_equal (@rev byte)) in E; rewrite rev_involutive in E.
      now apply (join_lines_not_empty k2 ks).
Qed.

(** X10.  The assembled bytes hold no [\r], and they neither begin nor end
    with [\n]: the lines are separated by single [\n] bytes and nothing
    else. *)
Theorem cdef_bytes_shape (sources : list bytes) :
  Forall (fun c => c <> CR) (cdef_bytes sources) /\
  hd_error (cdef_bytes sources) <> Some LF /\
  hd_error (rev (cdef_bytes sources)) <> Some LF.
Proof. apply join_lines_shape, cdeflines_wellformed. Qed.

(** ** The headers found in system mode *)









Example gcc_headers :
  fst (locate_headers gcc_host true world_a) =
  Returns ["/usr/include/zstd.h"; "/usr/include/zdict.h"].
Proof. reflexivity. Qed.

(** ** What the loop over the headers assembles *)





Lemma first_fresh_free_names (w : World) (names : list path) (n : path) (fs : list path) :
  filter (fun m => negb (exists_file w m)) names = n :: fs ->
  exists rest,
    first_fresh w names = Some (n, rest) /\
    filter (fun m => negb (exists_file w m)) rest = fs.
Proof.
  induction names as [|m names IH]; cbn [filter first_fresh]; [discriminate|].
  destruct (exists_file w m); cbn [negb]; [exact IH|].
  intros H; injection H as <- <-; now exists names.
Qed.

Lemma process_headers_returns (host : Host) (headers : list path) :
  forall (s0 : list bytes) (w : World),
    disk_full w = false ->
    List.length headers <= List.length (free_names w) ->
    (forall h, In h headers ->
               exists content,
                 files w h = Some content /\
                 forall n, exists out,
                     cc host n (Some (rewrite_header content)) = Some (0%Z, out)) ->
    exists sources w', process_headers host headers s0 w = (Returns sources, w').
Proof.
  induction headers as [|h rest IH]; intros s0 w Hd Hn Hh.
  - now exists s0, w.
  - destruct (Hh h (or_introl eq_refl)) as [content [Hc Hcc]].
    unfold free_names in Hn.
    destruct (filter (fun m => negb (exists_file w m)) (tmp_names w)) as [|n fs] eqn:Ef;
      [cbn in Hn; lia|].
    apply first_fresh_free_names in Ef as [names [Ef Hfs]].
    destruct (Hcc n) as [out Ho].
    assert (Hfree : files w n = None) by (eapply first_fresh_free; eauto).
    cbn [process_headers]; unfold bind.
    rewrite preprocess_eq, Hc, Ef, Hd; cbn [andb]; cbn zeta; rewrite Ho.
    change (0 =? 0)%Z with true; cbv iota.
    set (w3 := set_file n None (set_file n (Some (rewrite_header content))
                                         (created n names w))).
    assert (Hf : forall q, files w3 q = files w q)
      by (intros q; now apply removed_again).
    unfold read_file; rewrite Hf, Hc.
    apply IH.
    + exact Hd.
    + unfold free_names; change (tmp_names w3) with names.
      rewrite (filter_ext _ (fun m => negb (exists_file w m))).
      * rewrite Hfs; cbn [List.length] in Hn; lia.
      * intros m; unfold exists_file; now rewrite Hf.
    + intros h' Hh'; rewrite Hf; apply Hh; now right.
Qed.

(** X14.  [assemble] returns a text whenever every header of the list can
    be read, the preprocessor exits with status 0 on each rewritten header,
    the device has room, and the names proposed for temporary files hold at
    least as many free names as there are headers. *)
Theorem assemble_returns (host : Host) (headers : list path) (w : World) :
  disk_full w = false ->
  List.length headers <= List.length (free_names w) ->
  (forall h, In h headers ->
             exists content,
               files w h = Some content /\
               forall n, exists out,
                   cc host n (Some (rewrite_header content)) = Some (0%Z, out)) ->
  exists t, fst (assemble host headers w) = Returns t.
Proof.
  intros Hd Hn Hh; rewrite assemble_eq.
  destruct (process_headers_returns host headers [] w Hd Hn Hh) as [sources [w' ->]].
  now eexists.
Qed.

(** X14 at the scenario header, with one name free out of two. *)
Lemma assemble_returns_witness :
  exists t, fst (assemble toy_host ["zstd.h"] world_b) = Returns t.
Proof.
  apply (assemble_returns toy_host ["zstd.h"] world_b).
  - reflexivity.
  - cbn; lia.
  - intros h [<-|[]]; exists scenario_header; split; [reflexivity|].
    intros n; eexists; reflexivity.
Defined.

(** ** [get_ffi] in its two modes *)





(** ** The command line of the preprocessor *)




(** X18.  The configuration fails in two cases only: the compiler is
    neither of type unix nor of type msvc, and the exception names the type;
    or it is a unix compiler without a preprocessor command whose compiler
    command is empty, and taking its first element fails. *)
Theorem configure_fails_iff (c : Compiler) (e : config_error) :
  configure c = inl e <->
  (compiler_type c <> "unix" /\ compiler_type c <> "msvc" /\
   e = UnsupportedCompiler ("unsupported compiler type: " ++ compiler_type c)%string) \/
  (compiler_type c = "unix" /\ not_args (preprocessor c) = true /\
   compiler_cmd c = [] /\ e = IndexError).
Proof.
  unfold configure.
  destruct (String.eqb_spec (compiler_type c) "unix") as [Hu|Hu].
  - destruct (not_args (preprocessor c)); [destruct (compiler_cmd c) as [|exe cmd]|].
    + split; [intros H; injection H as <-; right; auto|].
      intros [[H _]|[_ [_ [_ ->]]]]; [contradiction|reflexivity].
    + split; [discriminate|].
      intros [[H _]|[_ [_ [H _]]]]; [contradiction|discriminate].
    + split; [discriminate|].
      intros [[H _]|[_ [H _]]]; [contradiction|discriminate].
  - destruct (String.eqb_spec (compiler_type c) "msvc") as [Hm|Hm].
    + split; [discriminate|].
      intros [[_ [H _]]|[H _]]; contradiction.
    + split; [intros H; injection H as <-; left; auto|].
      intros [[_ [_ ->]]|[H _]]; [reflexivity|contradiction].
Qed.

Example configure_synthesized :
  configure unix_without_cpp =
  inr (["clang"; "-E"; "-DZSTD_STATIC_LINKING_ONLY"; "-DZDICT_STATIC_LINKING_ONLY"],
       unix_without_cpp).
Proof. reflexivity. Qed.

(** ** A preprocessor that fails *)

